(** * Verification of nemo/lightning/io/pl.py (MegatronCheckpointIO and helpers)

    Shallow embedding of the checkpoint I/O plugin: the pathlib operations
    used by [ckpt_to_dir], an abstract local filesystem, the megatron
    [dist_checkpointing] backend (left as section variables), and the
    save / load / remove / device-fix code of the module. *)

From Stdlib Require Import String Ascii List Bool Arith Lia.
Import ListNotations.
Open Scope string_scope.
Open Scope list_scope.

(* ------------------------------------------------------------------ *)
(** ** Paths *)

(** A path as pathlib parses it (POSIX flavour, Python 3.8 to 3.13):
    an anchor ("" or "/") and the list of its components; "." components
    and empty components are dropped by the parser. *)
Record Path := mkPath { anchor : string; parts : list string }.

(** ** Python exceptions raised along the modelled paths *)

Inductive exc :=
  | TypeError_storage_options          (* save_checkpoint, storage_options given *)
  | ValueError_map_location            (* load_checkpoint, map_location given *)
  | FileNotFoundError_ckpt (p : Path)  (* load_checkpoint, path absent *)
  | ValueError_not_directory (p : Path)(* load_checkpoint, path is not a dir *)
  | ValueError_empty_name              (* pathlib with_suffix / with_name *)
  | ValueError_invalid_suffix          (* pathlib with_suffix *)
  | ValueError_invalid_name            (* pathlib with_name *)
  | AssertionError_ckpt_suffix         (* ckpt_to_dir assert *)
  | AssertionError_cuda                (* _fix_tensors_device assert *)
  | OSError_makedirs (p : Path)        (* fs.makedirs hits a regular file *)
  | BackendError (msg : string).       (* raised inside dist_checkpointing *)

Inductive Result (A : Type) := Ok (a : A) | Err (e : exc).
Arguments Ok {A} a.
Arguments Err {A} e.

Definition rbind {A B} (r : Result A) (k : A -> Result B) : Result B :=
  match r with Ok a => k a | Err e => Err e end.

Notation "'let!' x := r 'in' k" := (rbind r (fun x => k))
  (at level 200, x name, r at level 100, right associativity).

(* ------------------------------------------------------------------ *)
(** ** Strings: str.rfind, slicing *)

Definition dot : ascii := "."%char.
Definition slash : ascii := "/"%char.

(** [s.rfind('.')], [None] standing for -1. *)
Fixpoint rfind_dot (s : string) : option nat :=
  match s with
  | EmptyString => None
  | String c s' =>
      match rfind_dot s' with
      | Some i => Some (S i)
      | None => if Ascii.eqb c dot then Some 0 else None
      end
  end.

(** [s[:i]] and [s[i:]] for [0 <= i]. *)
Fixpoint str_take (i : nat) (s : string) : string :=
  match i, s with
  | 0, _ => EmptyString
  | _, EmptyString => EmptyString
  | S i', String c s' => String c (str_take i' s')
  end.

Fixpoint str_drop (i : nat) (s : string) : string :=
  match i, s with
  | 0, _ => s
  | _, EmptyString => EmptyString
  | S i', String c s' => str_drop i' s'
  end.

Fixpoint str_contains (c : ascii) (s : string) : bool :=
  match s with
  | EmptyString => false
  | String c' s' => Ascii.eqb c c' || str_contains c s'
  end.

Definition str_startswith_dot (s : string) : bool :=
  match s with String c _ => Ascii.eqb c dot | EmptyString => false end.

(* ------------------------------------------------------------------ *)
(** ** pathlib.PurePath *)

Definition last_part (l : list string) : string := last l "".

(** [PurePath.name]. *)
Definition name (p : Path) : string := last_part (parts p).

(** [PurePath.suffix]:
    [i = name.rfind('.'); if 0 < i < len(name) - 1: return name[i:] else ''] *)
Definition suffix_of (nm : string) : string :=
  match rfind_dot nm with
  | Some i => if Nat.ltb 0 i && Nat.ltb i (String.length nm - 1) then str_drop i nm else ""
  | None => ""
  end.

Definition suffix (p : Path) : string := suffix_of (name p).

(** [PurePath.stem]: [name[:i]] under the same condition, else [name]. *)
Definition stem_of (nm : string) : string :=
  match rfind_dot nm with
  | Some i => if Nat.ltb 0 i && Nat.ltb i (String.length nm - 1) then str_take i nm else nm
  | None => nm
  end.

Definition stem (p : Path) : string := stem_of (name p).

(** Replace the last component (the [_from_parsed_parts] step). *)
Definition replace_name (p : Path) (n : string) : Path :=
  mkPath (anchor p) (removelast (parts p) ++ [n]).

(** [PurePath.with_name(n)]. *)
Definition with_name (p : Path) (n : string) : Result Path :=
  if String.eqb (name p) "" then Err ValueError_empty_name
  else if String.eqb n "" || str_contains slash n || String.eqb n "." then
    Err ValueError_invalid_name
  else Ok (replace_name p n).

(** [PurePath.with_suffix(s)] (Python 3.8 to 3.12 text). *)
Definition with_suffix (p : Path) (s : string) : Result Path :=
  if str_contains slash s then Err ValueError_invalid_suffix
  else if (negb (String.eqb s "") && negb (str_startswith_dot s)) || String.eqb s "." then
    Err ValueError_invalid_suffix
  else
    let nm := name p in
    if String.eqb nm "" then Err ValueError_empty_name
    else
      let old := suffix_of nm in
      let nm' := if String.eqb old "" then String.append nm s
                 else String.append (str_take (String.length nm - String.length old) nm) s in
      Ok (replace_name p nm').

(* ------------------------------------------------------------------ *)
(** ** ckpt_to_dir *)

Definition marker : string := ".ckpt".

Definition ckpt_to_dir (filepath : Path) : Result Path :=
  let! filepath :=
    (if negb (String.eqb (suffix filepath) marker)
     then with_suffix filepath (String.append (suffix filepath) marker)
     else Ok filepath) in
  if negb (String.eqb (suffix filepath) marker) then Err AssertionError_ckpt_suffix
  else with_name filepath (stem filepath).

(** [Path(str(d) + ".ckpt")] for a path [d] with a non-empty name. *)
Definition add_marker (d : Path) : Path := replace_name d (String.append (name d) marker).

(** A component as the pathlib parser produces it. *)
Definition valid_part (s : string) : bool :=
  negb (String.eqb s "") && negb (str_contains slash s) && negb (String.eqb s ".").

Definition wf_path (p : Path) : bool := forallb valid_part (parts p).

Definition P (s : string) : Path := mkPath "" [s].

(* ------------------------------------------------------------------ *)
(** ** Local filesystem (fsspec [LocalFileSystem]) *)

Inductive node := NDir | NFile.

(** Filesystem entries are addressed by the anchor and the components. *)
Definition key (p : Path) : list string := anchor p :: parts p.

Definition FS := list string -> option node.

Definition key_eqb (a b : list string) : bool :=
  if list_eq_dec string_dec a b then true else false.

Fixpoint is_prefix_of (a b : list string) : bool :=
  match a, b with
  | [], _ => true
  | x :: a', y :: b' => String.eqb x y && is_prefix_of a' b'
  | _ :: _, [] => false
  end.

(** [fs.exists(p)] and [fs.isdir(p)]. *)
Definition existsb_fs (f : FS) (p : Path) : bool :=
  match f (key p) with Some _ => true | None => false end.

Definition isdirb (f : FS) (p : Path) : bool :=
  match f (key p) with Some NDir => true | _ => false end.

Definition isfileb (f : FS) (p : Path) : bool :=
  match f (key p) with Some NFile => true | _ => false end.

(** The ancestors of [p] and [p] itself, outermost first. *)
Definition prefixes (p : Path) : list Path :=
  map (fun k => mkPath (anchor p) (firstn k (parts p))) (seq 1 (length (parts p))).

Definition mkdir1 (f : FS) (q : Path) : FS :=
  fun k => if key_eqb (key q) k then
             match f k with Some n => Some n | None => Some NDir end
           else f k.

(** [rm -r p]: every entry at or below [p] disappears. *)
Definition rm_tree (f : FS) (p : Path) : FS :=
  fun k => if is_prefix_of (key p) k then None else f k.

(* ------------------------------------------------------------------ *)
(** ** Payloads, tensors and devices *)

Inductive Device := DevCPU | DevCUDA (index : nat) | DevOther (kind : string).

Definition device_eqb (a b : Device) : bool :=
  match a, b with
  | DevCPU, DevCPU => true
  | DevCUDA i, DevCUDA j => Nat.eqb i j
  | DevOther s, DevOther t => String.eqb s t
  | _, _ => false
  end.

Record Tensor := mkTensor { tdevice : Device; tdata : list nat }.

Definition is_cuda (t : Tensor) : bool :=
  match tdevice t with DevCUDA _ => true | _ => false end.

(** [t.to(dev)]: a copy of the data on [dev]. *)
Definition tensor_to (t : Tensor) (dev : Device) : Tensor := mkTensor dev (tdata t).

(** A Python value of a checkpoint: a tensor, a list, a dict (its items in
    order), or any other value (int, str, tuple, None, ...), which
    [dict_list_map_outplace] does not descend into. *)
Set Warnings "-register-all".
Inductive Obj :=
  | OTensor (t : Tensor)
  | OList (l : list Obj)
  | ODict (kvs : list (string * Obj))
  | OAtom (repr : string).

(** megatron.core.dist_checkpointing.dict_utils.dict_list_map_outplace:
    [{k: map(f, v) for k, v in x.items()}] on a dict, [[map(f, v) for v in x]]
    on a list, [f(x)] otherwise. *)
Fixpoint dict_list_map_outplace (f : Obj -> Obj) (x : Obj) : Obj :=
  match x with
  | ODict kvs => ODict (map (fun kv => (fst kv, dict_list_map_outplace f (snd kv))) kvs)
  | OList l => OList (map (dict_list_map_outplace f) l)
  | _ => f x
  end.

(** [_fix_device] of [_fix_tensors_device], for [cur_dev]. *)
Definition fix_device (cur_dev : Device) (t : Obj) : Obj :=
  match t with
  | OTensor x =>
      if is_cuda x && negb (device_eqb (tdevice x) cur_dev)
      then OTensor (tensor_to x cur_dev) else t
  | _ => t
  end.

(** Induction on payloads, through the lists and dicts they nest. *)
Fixpoint Obj_rect' (Q : Obj -> Prop)
    (Ht : forall t, Q (OTensor t))
    (Hl : forall l, Forall Q l -> Q (OList l))
    (Hd : forall kvs, Forall (fun kv => Q (snd kv)) kvs -> Q (ODict kvs))
    (Ha : forall s, Q (OAtom s)) (o : Obj) {struct o} : Q o :=
  match o with
  | OTensor t => Ht t
  | OList l =>
      Hl l ((fix go (l : list Obj) : Forall Q l :=
               match l with
               | [] => Forall_nil Q
               | x :: l' => Forall_cons x (Obj_rect' Q Ht Hl Hd Ha x) (go l')
               end) l)
  | ODict kvs =>
      Hd kvs ((fix go (kvs : list (string * Obj)) : Forall (fun kv => Q (snd kv)) kvs :=
                 match kvs with
                 | [] => Forall_nil _
                 | kv :: kvs' => Forall_cons kv (Obj_rect' Q Ht Hl Hd Ha (snd kv)) (go kvs')
                 end) kvs)
  | OAtom s => Ha s
  end.

(** DeviceFixup as the spec words it, for current device index [cur]:
    same nesting of dicts (same keys, same order) and lists; non-tensor
    leaves kept; tensors off CUDA or on [cuda:cur] kept; CUDA tensors on
    another device replaced by a copy of their data on [cuda:cur]. *)
Inductive relocated (cur : nat) : Obj -> Obj -> Prop :=
  | rel_atom s : relocated cur (OAtom s) (OAtom s)
  | rel_keep t :
      is_cuda t = false \/ tdevice t = DevCUDA cur ->
      relocated cur (OTensor t) (OTensor t)
  | rel_move t :
      is_cuda t = true -> tdevice t <> DevCUDA cur ->
      relocated cur (OTensor t) (OTensor (mkTensor (DevCUDA cur) (tdata t)))
  | rel_list l l' :
      Forall2 (relocated cur) l l' -> relocated cur (OList l) (OList l')
  | rel_dict kvs kvs' :
      Forall2 (fun a b => fst a = fst b /\ relocated cur (snd a) (snd b)) kvs kvs' ->
      relocated cur (ODict kvs) (ODict kvs').

(** Every tensor leaf is off CUDA or already on [cuda:cur]. *)
Fixpoint tensors_placed (cur : nat) (o : Obj) : bool :=
  match o with
  | OTensor t => negb (is_cuda t) || device_eqb (tdevice t) (DevCUDA cur)
  | OList l => forallb (tensors_placed cur) l
  | ODict kvs => forallb (fun kv => tensors_placed cur (snd kv)) kvs
  | OAtom _ => true
  end.

(* ------------------------------------------------------------------ *)
(** ** World and effects *)

(** [sharded_strategy] as built by [_determine_dist_ckpt_save_strategy]. *)
Definition Strategy := (string * nat)%type.

(** Calls into the filesystem and the backend, in the order they happen. *)
Inductive event :=
  | EvExists (p : Path)
  | EvIsdir (p : Path)
  | EvMakedirs (p : Path)
  | EvRm (p : Path)
  | EvCheckDist (p : Path)
  | EvDistSave (p : Path) (s : Strategy)
  | EvDistLoad (p : Path).

Definition event_path (e : event) : Path :=
  match e with
  | EvExists p | EvIsdir p | EvMakedirs p | EvRm p
  | EvCheckDist p | EvDistSave p _ | EvDistLoad p => p
  end.

Record World := mkWorld {
  fs : FS;
  cuda_initialized : bool;
  current_device : nat;
  trace : list event }.

Definition set_fs (w : World) (f : FS) : World :=
  mkWorld f (cuda_initialized w) (current_device w) (trace w).

Definition emit (w : World) (e : event) : World :=
  mkWorld (fs w) (cuda_initialized w) (current_device w) (trace w ++ [e]).

(** State and exception monad: effects performed before an exception stay. *)
Definition M (A : Type) := World -> Result A * World.

Definition ret {A} (a : A) : M A := fun w => (Ok a, w).
Definition raise {A} (e : exc) : M A := fun w => (Err e, w).
Definition bind {A B} (m : M A) (k : A -> M B) : M B :=
  fun w => match m w with
           | (Ok a, w') => k a w'
           | (Err e, w') => (Err e, w')
           end.
Definition lift {A} (r : Result A) : M A :=
  fun w => (r, w).

Notation "x <- m ;; k" := (bind m (fun x => k))
  (at level 61, m at next level, right associativity).
Notation "m ;;; k" := (bind m (fun _ => k))
  (at level 61, right associativity).

Definition fs_exists (p : Path) : M bool :=
  fun w => (Ok (existsb_fs (fs w) p), emit w (EvExists p)).

Definition fs_isdir (p : Path) : M bool :=
  fun w => (Ok (isdirb (fs w) p), emit w (EvIsdir p)).

(** [fs.makedirs(p, exist_ok=True)]. *)
Definition fs_makedirs (p : Path) : M unit :=
  fun w =>
    let w1 := emit w (EvMakedirs p) in
    if existsb (isfileb (fs w)) (prefixes p) then (Err (OSError_makedirs p), w1)
    else (Ok tt, set_fs w1 (fold_left mkdir1 (prefixes p) (fs w))).

(** [fs.rm(p, recursive=True)]. *)
Definition fs_rm (p : Path) : M unit :=
  fun w => (Ok tt, set_fs (emit w (EvRm p)) (rm_tree (fs w) p)).

Definition cuda_is_initialized : M bool := fun w => (Ok (cuda_initialized w), w).
Definition cuda_current_device : M nat := fun w => (Ok (current_device w), w).

(** Write-count and makedirs-count spies on a trace. *)
Definition is_dist_save (e : event) : bool :=
  match e with EvDistSave _ _ => true | _ => false end.
Definition is_makedirs (e : event) : bool :=
  match e with EvMakedirs _ => true | _ => false end.
Definition dist_saves (t : list event) : nat := length (filter is_dist_save t).
Definition makedirs_calls (t : list event) : nat := length (filter is_makedirs t).

(* ------------------------------------------------------------------ *)
(** ** A concrete backend, used to run the operations on examples *)

(** [check_is_distributed_checkpoint]: the metadata file of the checkpoint
    is present in the directory. *)
Definition metadata_probe (f : FS) (d : Path) : bool :=
  match f (key d ++ ["metadata.json"]) with Some NFile => true | _ => false end.

(** A sharded write that lands the metadata file last. *)
Definition metadata_save (ckpt : Obj) (d : Path) (s : Strategy) (f : FS) : Result FS :=
  Ok (fun k => if key_eqb (key d ++ ["metadata.json"]) k then Some NFile else f k).

Definition sample_payload : Obj :=
  ODict [("w", OTensor (mkTensor (DevCUDA 1) [1; 2; 3])); ("step", OAtom "10")].

Definition metadata_load (hint : option Obj) (d : Path) (f : FS) : Result Obj :=
  if metadata_probe f d then Ok sample_payload else Err (BackendError "no metadata").

Definition empty_fs : FS := fun _ => None.

(** An empty root directory, CUDA initialized, current device 0. *)
Definition world0 : World := mkWorld (fun k => if key_eqb k ["/"] then Some NDir else None) true 0 [].

(* ------------------------------------------------------------------ *)
(** ** MegatronCheckpointIO *)

Record MegatronCheckpointIO := mkIO {
  save_ckpt_format : string;
  save_sharded_strategy : Strategy }.

(** [_determine_dist_ckpt_save_strategy]. *)
Definition determine_dist_ckpt_save_strategy (save_ckpt_format : string) : Strategy :=
  (save_ckpt_format, 1).

(** [__init__(save_ckpt_format='torch_dist')]. *)
Definition init (save_ckpt_format : string) : MegatronCheckpointIO :=
  mkIO save_ckpt_format (determine_dist_ckpt_save_strategy save_ckpt_format).

Definition init_default : MegatronCheckpointIO := init "torch_dist".

(* ------------------------------------------------------------------ *)
(** ** TrainerContext *)

(** A Python object as [hasattr(x, "__io__")] sees it: its [__io__] value,
    if it has one. *)
Record PyObj := mkPyObj { io_attr : option Obj }.

(** The trainer attributes [from_trainer] reads; [datamodule] is [None]
    when the trainer has no such attribute (a [datamodule] attribute holding
    [None] is a [PyObj] without [__io__]). *)
Record Trainer := mkTrainer {
  trainer_io : option Obj;
  lightning_module : PyObj;
  datamodule : option PyObj }.

Record TrainerContext := mkTrainerContext {
  model : PyObj;
  trainer : Trainer;
  extra : list (string * Obj) }.

(** The two ValueErrors of [from_trainer]. *)
Inductive ctx_error := ValueError_trainer_not_io | ValueError_module_not_iomixin.

(** [TrainerContext.construct_extra]. *)
Definition construct_extra (t : Trainer) : list (string * Obj) :=
  match datamodule t with
  | Some dm => match io_attr dm with Some io => [("datamodule", io)] | None => [] end
  | None => []
  end.

(** [TrainerContext.from_trainer]. *)
Definition from_trainer (t : Trainer) : ctx_error + TrainerContext :=
  match trainer_io t with
  | None => inl ValueError_trainer_not_io
  | Some _ =>
      match io_attr (lightning_module t) with
      | None => inl ValueError_module_not_iomixin
      | Some _ => inr (mkTrainerContext (lightning_module t) t (construct_extra t))
      end
  end.

Section Backend.

(** [megatron.core.dist_checkpointing]: the validity probe, the sharded
    write and the sharded read. *)
Variable check_is_distributed_checkpoint : FS -> Path -> bool.
Variable dist_save : Obj -> Path -> Strategy -> FS -> Result FS.
Variable dist_load : option Obj -> Path -> FS -> Result Obj.

Definition ds_check (d : Path) : M bool :=
  fun w => (Ok (check_is_distributed_checkpoint (fs w) d), emit w (EvCheckDist d)).

Definition ds_save (ckpt : Obj) (d : Path) (s : Strategy) : M unit :=
  fun w =>
    let w1 := emit w (EvDistSave d s) in
    match dist_save ckpt d s (fs w) with
    | Ok f => (Ok tt, set_fs w1 f)
    | Err e => (Err e, w1)
    end.

Definition ds_load (sharded_state_dict : option Obj) (d : Path) : M Obj :=
  fun w => (dist_load sharded_state_dict d (fs w), emit w (EvDistLoad d)).

(** [_fix_tensors_device]. *)
Definition fix_tensors_device (ckpt : Obj) : M Obj :=
  init <- cuda_is_initialized ;;
  if negb init then raise AssertionError_cuda else
  cur <- cuda_current_device ;;
  ret (dict_list_map_outplace (fix_device (DevCUDA cur)) ckpt).

(** [MegatronCheckpointIO.save_checkpoint]; [storage_options] is any value. *)
Definition save_checkpoint (io : MegatronCheckpointIO) (checkpoint : Obj) (path : Path)
    (storage_options : option Obj) : M unit :=
  match storage_options with
  | Some _ => raise TypeError_storage_options
  | None =>
      checkpoint_dir <- lift (ckpt_to_dir path) ;;
      isdir <- fs_isdir checkpoint_dir ;;
      done <- (if isdir then ds_check checkpoint_dir else ret false) ;;
      if done then ret tt
      else
        fs_makedirs checkpoint_dir ;;;
        ds_save checkpoint checkpoint_dir (save_sharded_strategy io)
  end.

(** [MegatronCheckpointIO.load_checkpoint]; [map_location] is a callable. *)
Definition load_checkpoint (io : MegatronCheckpointIO) (path : Path)
    (sharded_state_dict : option Obj) (map_location : option (Obj -> Obj)) : M Obj :=
  match map_location with
  | Some _ => raise ValueError_map_location
  | None =>
      e <- fs_exists path ;;
      if negb e then raise (FileNotFoundError_ckpt path) else
      d <- fs_isdir path ;;
      if negb d then raise (ValueError_not_directory path) else
      checkpoint <- ds_load sharded_state_dict path ;;
      fix_tensors_device checkpoint
  end.

(** [MegatronCheckpointIO.remove_checkpoint]. *)
Definition remove_checkpoint (io : MegatronCheckpointIO) (path : Path) : M unit :=
  e <- fs_exists path ;;
  if e then fs_rm path else ret tt.

(** [is_distributed_ckpt]. *)
Definition is_distributed_ckpt (path : Path) : M bool :=
  checkpoint_dir <- lift (ckpt_to_dir path) ;;
  isdir <- fs_isdir checkpoint_dir ;;
  ok <- (if isdir then ds_check checkpoint_dir else ret false) ;;
  if ok then ret true else ret false.

(* ------------------------------------------------------------------ *)
(** ** String and path lemmas *)

Lemma rfind_dot_app (a b : string) :
  rfind_dot (String.append a b) =
  match rfind_dot b with Some i => Some (String.length a + i) | None => rfind_dot a end.
Proof.
  induction a as [|c a IH]; simpl.
  - destruct (rfind_dot b); reflexivity.
  - rewrite IH. destruct (rfind_dot b); [reflexivity|].
    destruct (rfind_dot a); reflexivity.
Qed.

Lemma str_take_app (a b : string) : str_take (String.length a) (String.append a b) = a.
Proof. induction a as [|c a IH]; simpl; [destruct b|rewrite IH]; reflexivity. Qed.

Lemma str_drop_app (a b : string) : str_drop (String.length a) (String.append a b) = b.
Proof. induction a as [|c a IH]; simpl; [destruct b|]; auto. Qed.

Lemma append_empty_r (a : string) : String.append a "" = a.
Proof. induction a; simpl; congruence. Qed.

Lemma str_length_app (a b : string) :
  String.length (String.append a b) = String.length a + String.length b.
Proof. induction a; simpl; auto. Qed.

Lemma length_str_drop (i : nat) (s : string) :
  String.length (str_drop i s) = String.length s - i.
Proof.
  revert i; induction s as [|c s IH]; intros [|i]; simpl; auto.
Qed.

Lemma str_take_drop (i : nat) (s : string) :
  String.append (str_take i s) (str_drop i s) = s.
Proof.
  revert i; induction s as [|c s IH]; intros [|i]; simpl; auto.
  rewrite IH; reflexivity.
Qed.

Lemma str_contains_app (c : ascii) (a b : string) :
  str_contains c (String.append a b) = str_contains c a || str_contains c b.
Proof. induction a as [|c' a IH]; simpl; auto. rewrite IH, orb_assoc; reflexivity. Qed.

Lemma str_contains_take (c : ascii) (i : nat) (s : string) :
  str_contains c s = false -> str_contains c (str_take i s) = false.
Proof.
  revert i; induction s as [|c' s IH]; intros [|i] H; simpl in *; auto.
  apply orb_false_iff in H as [H1 H2]. rewrite H1, (IH i H2); reflexivity.
Qed.

Lemma str_contains_drop (c : ascii) (i : nat) (s : string) :
  str_contains c s = false -> str_contains c (str_drop i s) = false.
Proof.
  revert i; induction s as [|c' s IH]; intros [|i] H; simpl in *; auto.
  apply orb_false_iff in H as [H1 H2]. auto.
Qed.

Lemma rfind_dot_drop (s : string) (i : nat) :
  rfind_dot s = Some i -> exists rest, str_drop i s = String dot rest.
Proof.
  revert i; induction s as [|c s IH]; intros i H; simpl in H; [discriminate|].
  destruct (rfind_dot s) as [j|] eqn:E.
  - injection H as <-. simpl. apply IH; reflexivity.
  - destruct (Ascii.eqb c dot) eqn:Ec; [|discriminate].
    injection H as <-. apply Ascii.eqb_eq in Ec; subst. simpl. eauto.
Qed.

Lemma rfind_dot_marker : rfind_dot marker = Some 0.
Proof. reflexivity. Qed.

(** Appending the marker to a non-empty name makes it the suffix, with
    the name as stem. *)
Lemma suffix_stem_add_marker (n : string) :
  n <> "" -> suffix_of (String.append n marker) = marker /\
             stem_of (String.append n marker) = n.
Proof.
  intros Hn. unfold suffix_of, stem_of.
  rewrite rfind_dot_app, rfind_dot_marker, str_length_app.
  assert (Hl : 0 < String.length n) by (destruct n; simpl; [congruence|lia]).
  replace (Nat.ltb 0 (String.length n + 0)) with true by (symmetry; apply Nat.ltb_lt; lia).
  replace (Nat.ltb (String.length n + 0) (String.length n + String.length marker - 1))
    with true by (symmetry; apply Nat.ltb_lt; simpl; lia).
  simpl. rewrite Nat.add_0_r, str_take_app, str_drop_app. auto.
Qed.

(** [stem + suffix = name]. *)
Lemma stem_suffix_of (nm : string) : String.append (stem_of nm) (suffix_of nm) = nm.
Proof.
  unfold stem_of, suffix_of.
  destruct (rfind_dot nm) as [i|]; [|apply append_empty_r].
  destruct (Nat.ltb 0 i && Nat.ltb i (String.length nm - 1)); [apply str_take_drop|].
  apply append_empty_r.
Qed.

Lemma append_assoc_str (a b c : string) :
  String.append (String.append a b) c = String.append a (String.append b c).
Proof. induction a; simpl; congruence. Qed.

Lemma suffix_of_shape (nm : string) :
  suffix_of nm = "" \/ exists rest, suffix_of nm = String dot rest.
Proof.
  unfold suffix_of. destruct (rfind_dot nm) as [i|] eqn:E; auto.
  destruct (Nat.ltb 0 i && Nat.ltb i (String.length nm - 1)); auto.
  right. apply rfind_dot_drop; exact E.
Qed.

Lemma str_contains_suffix_of (c : ascii) (nm : string) :
  str_contains c nm = false -> str_contains c (suffix_of nm) = false.
Proof.
  intros H. unfold suffix_of. destruct (rfind_dot nm); auto.
  destruct (_ && _); auto using str_contains_drop.
Qed.

Lemma str_contains_stem_of (c : ascii) (nm : string) :
  str_contains c nm = false -> str_contains c (stem_of nm) = false.
Proof.
  intros H. unfold stem_of. destruct (rfind_dot nm); auto.
  destruct (_ && _); auto using str_contains_take.
Qed.

Lemma stem_nonempty (nm : string) : suffix_of nm <> "" -> stem_of nm <> "".
Proof.
  unfold suffix_of, stem_of. destruct (rfind_dot nm) as [i|]; [|congruence].
  destruct (Nat.ltb 0 i && Nat.ltb i (String.length nm - 1)) eqn:C; [|congruence].
  intros _. apply andb_true_iff in C as [C1 C2].
  apply Nat.ltb_lt in C1. apply Nat.ltb_lt in C2.
  destruct nm as [|c nm]; simpl in C2; [lia|].
  destruct i; [lia|]. simpl. discriminate.
Qed.

Lemma name_replace (p : Path) (n : string) : name (replace_name p n) = n.
Proof. unfold name, last_part, replace_name; simpl. apply last_last. Qed.

Lemma replace_replace (p : Path) (x n : string) :
  replace_name (replace_name p x) n = replace_name p n.
Proof. unfold replace_name; simpl. rewrite removelast_last. reflexivity. Qed.

Lemma replace_name_self (p : Path) : parts p <> [] -> replace_name p (name p) = p.
Proof.
  intros H. destruct p as [a ps]. unfold replace_name, name, last_part; simpl in *.
  rewrite <- app_removelast_last by exact H. reflexivity.
Qed.

Lemma wf_name (p : Path) :
  wf_path p = true -> parts p <> [] -> valid_part (name p) = true.
Proof.
  intros Hwf Hne. unfold wf_path in Hwf. unfold name, last_part.
  rewrite (app_removelast_last "" Hne) in Hwf.
  rewrite forallb_app in Hwf. apply andb_true_iff in Hwf as [_ H].
  simpl in H. rewrite andb_true_r in H. exact H.
Qed.

Lemma valid_part_iff (s : string) :
  valid_part s = true <-> s <> "" /\ str_contains slash s = false /\ s <> ".".
Proof.
  unfold valid_part. rewrite !andb_true_iff, !negb_true_iff, !String.eqb_neq.
  tauto.
Qed.

Lemma with_name_ok (q : Path) (n : string) (d : Path) :
  with_name q n = Ok d -> d = replace_name q n /\ valid_part n = true.
Proof.
  unfold with_name. destruct (name q =? "")%string; [discriminate|].
  unfold valid_part.
  destruct (n =? "")%string, (str_contains slash n), (n =? ".")%string;
    simpl; try discriminate.
  intros H; injection H as <-; auto.
Qed.

Lemma with_name_valid (q : Path) (n : string) :
  name q <> "" -> valid_part n = true -> with_name q n = Ok (replace_name q n).
Proof.
  intros Hq Hn. unfold with_name, valid_part in *.
  apply String.eqb_neq in Hq. rewrite Hq.
  destruct (n =? "")%string, (str_contains slash n), (n =? ".")%string;
    simpl in *; try discriminate; reflexivity.
Qed.

Lemma with_suffix_marker (p : Path) :
  name p <> "" -> str_contains slash (name p) = false ->
  with_suffix p (String.append (suffix p) marker) =
  Ok (replace_name p (String.append (name p) marker)).
Proof.
  intros Hn Hs. unfold with_suffix, suffix.
  rewrite str_contains_app, (str_contains_suffix_of _ _ Hs). simpl.
  destruct (suffix_of_shape (name p)) as [E|[rest E]].
  - rewrite E. simpl. apply String.eqb_neq in Hn. rewrite Hn.
    simpl. reflexivity.
  - rewrite E. simpl.
    replace (String.append rest marker =? "")%string with false.
    2:{ symmetry. apply String.eqb_neq. intros H.
        apply (f_equal String.length) in H. rewrite str_length_app in H.
        simpl in H. lia. }
    apply String.eqb_neq in Hn. rewrite Hn. simpl.
    f_equal. f_equal.
    change (String dot (String.append rest marker))
      with (String.append (String dot rest) marker).
    replace (S (String.length rest)) with (String.length (String dot rest)) by reflexivity.
    rewrite <- E.
    pose proof (stem_suffix_of (name p)) as ES.
    remember (stem_of (name p)) as st. remember (suffix_of (name p)) as old.
    rewrite <- ES at 1 2 3. rewrite str_length_app.
    replace (String.length st + String.length old - String.length old)
      with (String.length st) by lia.
    rewrite str_take_app, append_assoc_str. reflexivity.
Qed.

(* ------------------------------------------------------------------ *)
(** ** PathConvention: ckpt_to_dir *)

Lemma ckpt_to_dir_cases (p : Path) (Hwf : wf_path p = true) (Hne : parts p <> []) :
  ckpt_to_dir p =
  if String.eqb (suffix p) marker then
    (if String.eqb (stem p) "." then Err ValueError_invalid_name
     else Ok (replace_name p (stem p)))
  else Ok p.
Proof.
  pose proof (wf_name p Hwf Hne) as Hv.
  apply valid_part_iff in Hv as [Hn [Hs Hd]].
  unfold ckpt_to_dir.
  destruct (String.eqb (suffix p) marker) eqn:Es; simpl.
  - rewrite Es. simpl.
    apply String.eqb_eq in Es.
    assert (Hst : stem p <> "").
    { unfold stem. apply stem_nonempty. unfold suffix in Es. rewrite Es. discriminate. }
    assert (Hss : str_contains slash (stem p) = false) by (apply str_contains_stem_of; exact Hs).
    destruct (String.eqb (stem p) ".") eqn:Ed.
    + unfold with_name. apply String.eqb_neq in Hn. rewrite Hn, Ed, orb_true_r. reflexivity.
    + apply with_name_valid; [exact Hn|].
      apply valid_part_iff. apply String.eqb_neq in Ed. auto.
  - rewrite with_suffix_marker by assumption. simpl.
    destruct (suffix_stem_add_marker (name p) Hn) as [E1 E2].
    unfold suffix, stem. rewrite !name_replace, E1, E2. simpl.
    rewrite with_name_valid.
    + rewrite replace_replace, replace_name_self by exact Hne. reflexivity.
    + rewrite name_replace. intros H.
      apply (f_equal String.length) in H. rewrite str_length_app in H. simpl in H. lia.
    + apply valid_part_iff; auto.
Qed.

(** [C2] (as amended). For a well-formed path [P] with a final name,
    [ckpt_to_dir P] is [P] itself when the suffix of [P] is not ".ckpt";
    when it is, the result is [P] with the ".ckpt" stripped from its name
    ("step10.ckpt" gives "step10"), except for the name "..ckpt", whose stem
    "." pathlib refuses as a name. *)
Theorem ckpt_to_dir_spec (p : Path) (Hwf : wf_path p = true) (Hne : parts p <> []) :
  ckpt_to_dir p =
  if String.eqb (suffix p) marker then
    (if String.eqb (stem p) "." then Err ValueError_invalid_name
     else Ok (replace_name p (stem p)))
  else Ok p.
Proof. exact (ckpt_to_dir_cases p Hwf Hne). Qed.

(** [C3]. Re-adding the marker to the directory [ckpt_to_dir] returns and
    resolving again gives the same directory:
    [ckpt_to_dir (ckpt_to_dir P + ".ckpt") = ckpt_to_dir P], errors included.
    This holds for every [P], in particular for those without the marker. *)
Theorem ckpt_to_dir_add_marker (p : Path) :
  rbind (ckpt_to_dir p) (fun d => ckpt_to_dir (add_marker d)) = ckpt_to_dir p.
Proof.
  destruct (ckpt_to_dir p) as [d|e] eqn:E; [|reflexivity]. simpl.
  unfold ckpt_to_dir in E.
  match type of E with rbind ?X _ = _ => destruct X as [a|e0] eqn:E1 end;
    simpl in E; [|discriminate].
  destruct (negb (String.eqb (suffix a) marker)); [discriminate|].
  apply with_name_ok in E as [-> Hv].
  pose proof Hv as Hv'. apply valid_part_iff in Hv' as [Hn [Hs Hd]].
  destruct (suffix_stem_add_marker (stem a) Hn) as [S1 S2].
  remember (stem a) as n eqn:En. clear En.
  unfold ckpt_to_dir, add_marker, suffix, stem.
  rewrite !name_replace, S1. simpl.
  rewrite !name_replace, S1, S2. simpl.
  rewrite with_name_valid by (rewrite ?name_replace; auto;
    intros H; apply (f_equal String.length) in H; rewrite str_length_app in H; simpl in H; lia).
  rewrite !replace_replace. reflexivity.
Qed.

(* ------------------------------------------------------------------ *)
(** ** CheckpointStore: save, load, remove *)

Lemma filter_app_length (f : event -> bool) (a b : list event) :
  length (filter f (a ++ b)) = length (filter f a) + length (filter f b).
Proof. rewrite filter_app, List.length_app. reflexivity. Qed.

(** [C1]. With no [storage_options], when the resolved directory is a
    directory that the backend probe reports complete, [save_checkpoint]
    returns normally, leaves the filesystem as it was and calls neither
    [fs.makedirs] nor the sharded write. *)
Theorem save_skips_complete_checkpoint (io : MegatronCheckpointIO) (checkpoint : Obj)
    (path d : Path) (w : World)
    (Hd : ckpt_to_dir path = Ok d)
    (Hdir : isdirb (fs w) d = true)
    (Hdone : check_is_distributed_checkpoint (fs w) d = true) :
  exists w', save_checkpoint io checkpoint path None w = (Ok tt, w') /\
    fs w' = fs w /\
    dist_saves (trace w') = dist_saves (trace w) /\
    makedirs_calls (trace w') = makedirs_calls (trace w).
Proof.
  exists (emit (emit w (EvIsdir d)) (EvCheckDist d)).
  unfold save_checkpoint, bind, lift, fs_isdir, ds_check, ret.
  rewrite Hd, Hdir. simpl. rewrite Hdone.
  split; [reflexivity|]. split; [reflexivity|].
  unfold dist_saves, makedirs_calls. simpl.
  rewrite <- app_assoc, !filter_app_length. simpl. split; lia.
Qed.

(** [C4]. A non-null [storage_options] on save, or a non-null
    [map_location] on load, raises at once (TypeError, resp. ValueError:
    the UnsupportedOption of the spec) with the world untouched: no
    resolution, no filesystem call, no backend call. *)
Theorem unsupported_options_fail_first (io : MegatronCheckpointIO) (checkpoint : Obj)
    (path : Path) (storage_options : Obj) (sharded_state_dict : option Obj)
    (map_location : Obj -> Obj) (w : World) :
  save_checkpoint io checkpoint path (Some storage_options) w =
    (Err TypeError_storage_options, w) /\
  load_checkpoint io path sharded_state_dict (Some map_location) w =
    (Err ValueError_map_location, w).
Proof. split; reflexivity. Qed.

(** [C5]. With no [map_location]: an absent path raises FileNotFoundError
    and a path that exists but is not a directory raises ValueError
    (NotFound and InvalidLayout of the spec); the trace shows that only
    the existence and directory checks ran, never the sharded read. *)
Theorem load_missing_or_not_dir (io : MegatronCheckpointIO) (path : Path)
    (sharded_state_dict : option Obj) (w : World) :
  (existsb_fs (fs w) path = false ->
   load_checkpoint io path sharded_state_dict None w =
     (Err (FileNotFoundError_ckpt path), emit w (EvExists path))) /\
  (existsb_fs (fs w) path = true -> isdirb (fs w) path = false ->
   load_checkpoint io path sharded_state_dict None w =
     (Err (ValueError_not_directory path), emit (emit w (EvExists path)) (EvIsdir path))).
Proof.
  unfold load_checkpoint, bind, fs_exists, fs_isdir, raise.
  split.
  - intros He. rewrite He. reflexivity.
  - intros He Hd. rewrite He. simpl. rewrite Hd. reflexivity.
Qed.

Lemma fix_tensors_device_world (ckpt : Obj) (w : World) :
  snd (fix_tensors_device ckpt w) = w.
Proof.
  unfold fix_tensors_device, bind, cuda_is_initialized, cuda_current_device, ret, raise.
  destruct (cuda_initialized w); reflexivity.
Qed.

(** [C6]. [load_checkpoint] never rewrites its argument: every filesystem
    and backend call it makes (existence check, directory check, sharded
    read) is on the raw [path], and it changes no file. *)
Theorem load_uses_raw_path (io : MegatronCheckpointIO) (path : Path)
    (sharded_state_dict : option Obj) (map_location : option (Obj -> Obj)) (w : World) :
  exists evs,
    trace (snd (load_checkpoint io path sharded_state_dict map_location w)) = trace w ++ evs /\
    Forall (fun e => event_path e = path) evs /\
    fs (snd (load_checkpoint io path sharded_state_dict map_location w)) = fs w.
Proof.
  destruct map_location as [f|].
  - exists []. simpl. rewrite app_nil_r. repeat split; constructor.
  - unfold load_checkpoint, bind, fs_exists, fs_isdir, raise, ds_load.
    destruct (existsb_fs (fs w) path); simpl.
    2:{ exists [EvExists path]. repeat split; repeat constructor. }
    destruct (isdirb (fs w) path); simpl.
    2:{ exists [EvExists path; EvIsdir path]. rewrite <- app_assoc. repeat split; repeat constructor. }
    destruct (dist_load sharded_state_dict path (fs w)) as [ck|e].
    + rewrite fix_tensors_device_world.
      exists [EvExists path; EvIsdir path; EvDistLoad path].
      simpl. rewrite <- !app_assoc. simpl. repeat split; repeat constructor.
    + exists [EvExists path; EvIsdir path; EvDistLoad path].
      simpl. rewrite <- !app_assoc. simpl. repeat split; repeat constructor.
Qed.

Lemma is_prefix_of_refl (k : list string) : is_prefix_of k k = true.
Proof. induction k; simpl; auto. rewrite String.eqb_refl. auto. Qed.

(** [C7]. [remove_checkpoint] always returns normally. If [path] exists,
    afterwards neither it nor anything below it exists; if it is absent,
    the filesystem is unchanged. *)
Theorem remove_checkpoint_spec (io : MegatronCheckpointIO) (path : Path) (w : World) :
  fst (remove_checkpoint io path w) = Ok tt /\
  (if existsb_fs (fs w) path
   then existsb_fs (fs (snd (remove_checkpoint io path w))) path = false /\
        (forall q, is_prefix_of (key path) (key q) = true ->
                   existsb_fs (fs (snd (remove_checkpoint io path w))) q = false)
   else fs (snd (remove_checkpoint io path w)) = fs w).
Proof.
  assert (Heq : remove_checkpoint io path w =
    if existsb_fs (fs w) path
    then (Ok tt, set_fs (emit (emit w (EvExists path)) (EvRm path)) (rm_tree (fs w) path))
    else (Ok tt, emit w (EvExists path))).
  { unfold remove_checkpoint, bind, fs_exists, fs_rm, ret.
    destruct (existsb_fs (fs w) path); reflexivity. }
  rewrite Heq. destruct (existsb_fs (fs w) path) eqn:E; cbn [fst snd fs set_fs emit];
    [|split; reflexivity].
  split; [reflexivity|]. split.
  - unfold existsb_fs, rm_tree. rewrite is_prefix_of_refl. reflexivity.
  - intros q Hq. unfold existsb_fs, rm_tree. rewrite Hq. reflexivity.
Qed.

(* ------------------------------------------------------------------ *)
(** ** DeviceFixup: _fix_tensors_device *)

Lemma device_eqb_eq (a b : Device) : device_eqb a b = true <-> a = b.
Proof.
  destruct a, b; simpl; split; intros H; try discriminate; try congruence.
  - apply Nat.eqb_eq in H; congruence.
  - injection H as ->. apply Nat.eqb_refl.
  - apply String.eqb_eq in H; congruence.
  - injection H as ->. apply String.eqb_refl.
Qed.

Lemma map_outplace_relocated (cur : nat) (o : Obj) :
  relocated cur o (dict_list_map_outplace (fix_device (DevCUDA cur)) o).
Proof.
  induction o using Obj_rect'; simpl.
  - unfold fix_device.
    destruct (is_cuda t) eqn:Ec; simpl.
    + destruct (device_eqb (tdevice t) (DevCUDA cur)) eqn:Ed; simpl.
      * apply rel_keep. right. apply device_eqb_eq; exact Ed.
      * apply rel_move; [exact Ec|]. intros H. apply device_eqb_eq in H. congruence.
    + apply rel_keep. left. exact Ec.
  - apply rel_list. induction H; simpl; constructor; auto.
  - apply rel_dict. induction H; simpl; constructor; auto.
  - apply rel_atom.
Qed.

Lemma map_outplace_placed (cur : nat) (o : Obj) :
  tensors_placed cur o = true ->
  dict_list_map_outplace (fix_device (DevCUDA cur)) o = o.
Proof.
  induction o using Obj_rect'; simpl; intros Hp.
  - unfold fix_device. apply orb_true_iff in Hp as [Hp|Hp].
    + apply negb_true_iff in Hp. rewrite Hp. reflexivity.
    + rewrite Hp, andb_false_r. reflexivity.
  - f_equal. induction H as [|x l Hx Hl IH]; simpl in *; [reflexivity|].
    apply andb_true_iff in Hp as [H1 H2]. rewrite Hx, IH by assumption. reflexivity.
  - f_equal. induction H as [|[k v] kvs Hx Hl IH]; simpl in *; [reflexivity|].
    apply andb_true_iff in Hp as [H1 H2]. rewrite Hx, IH by assumption. reflexivity.
  - reflexivity.
Qed.

(** [C8]. With CUDA initialized, [_fix_tensors_device] returns normally,
    touches nothing else, and its result is the out-of-place relocation of
    the payload: same dict/list nesting and keys, non-tensor leaves kept,
    tensors off CUDA or on the current device kept, CUDA tensors on another
    device replaced by a copy on the current device. When every tensor is
    already placed (on the current device, or not on CUDA), the result is
    the payload itself. *)
Theorem fix_tensors_device_spec (ckpt : Obj) (w : World)
    (Hinit : cuda_initialized w = true) :
  exists r, fix_tensors_device ckpt w = (Ok r, w) /\
    relocated (current_device w) ckpt r /\
    (tensors_placed (current_device w) ckpt = true -> r = ckpt).
Proof.
  exists (dict_list_map_outplace (fix_device (DevCUDA (current_device w))) ckpt).
  unfold fix_tensors_device, bind, cuda_is_initialized, cuda_current_device, ret, raise.
  rewrite Hinit. simpl. split; [reflexivity|]. split.
  - apply map_outplace_relocated.
  - apply map_outplace_placed.
Qed.

(* ------------------------------------------------------------------ *)
(** ** ExistenceOracle: is_distributed_ckpt *)

Lemma ckpt_to_dir_ok (p d : Path) :
  ckpt_to_dir p = Ok d -> valid_part (name d) = true /\ parts d <> [].
Proof.
  unfold ckpt_to_dir. intros E.
  match type of E with rbind ?X _ = _ => destruct X as [a|e0] end;
    simpl in E; [|discriminate].
  destruct (negb _); [discriminate|].
  apply with_name_ok in E as [-> Hv].
  rewrite name_replace. split; [exact Hv|].
  unfold replace_name; simpl. intros H. apply app_eq_nil in H as [_ H]. discriminate.
Qed.

Lemma ckpt_to_dir_unmarked (p : Path) :
  valid_part (name p) = true -> parts p <> [] -> String.eqb (suffix p) marker = false ->
  ckpt_to_dir p = Ok p.
Proof.
  intros Hv Hne Es. pose proof Hv as Hv'. apply valid_part_iff in Hv' as [Hn [Hs Hd]].
  unfold ckpt_to_dir. rewrite Es. simpl.
  rewrite with_suffix_marker by assumption. simpl.
  destruct (suffix_stem_add_marker (name p) Hn) as [E1 E2].
  unfold suffix, stem. rewrite !name_replace, E1, E2. simpl.
  rewrite with_name_valid by (rewrite ?name_replace; auto;
    intros H; apply (f_equal String.length) in H; rewrite str_length_app in H; simpl in H; lia).
  rewrite replace_replace, replace_name_self by exact Hne. reflexivity.
Qed.

Lemma is_distributed_ckpt_eq (path d : Path) (w : World) :
  ckpt_to_dir path = Ok d ->
  is_distributed_ckpt path w =
  (Ok (isdirb (fs w) d && check_is_distributed_checkpoint (fs w) d),
   if isdirb (fs w) d then emit (emit w (EvIsdir d)) (EvCheckDist d) else emit w (EvIsdir d)).
Proof.
  intros Hd. unfold is_distributed_ckpt, bind, lift, fs_isdir, ds_check, ret.
  rewrite Hd. simpl. destruct (isdirb (fs w) d); simpl; [|reflexivity].
  destruct (check_is_distributed_checkpoint (fs w) d); reflexivity.
Qed.

Lemma isdirb_existsb (f : FS) (d : Path) : isdirb f d = true -> existsb_fs f d = true.
Proof. unfold isdirb, existsb_fs. destruct (f (key d)); congruence. Qed.

Lemma is_distributed_ckpt_err (path : Path) (e : exc) (w : World) :
  ckpt_to_dir path = Err e -> is_distributed_ckpt path w = (Err e, w).
Proof. intros H. unfold is_distributed_ckpt, bind, lift. rewrite H. reflexivity. Qed.

Lemma ckpt_to_dir_no_parts (a : string) :
  ckpt_to_dir (mkPath a []) = Err ValueError_empty_name.
Proof. reflexivity. Qed.

Lemma ckpt_to_dir_dotdot (path : Path) :
  name path = "..ckpt" -> ckpt_to_dir path = Err ValueError_invalid_name.
Proof.
  intros Hn. unfold ckpt_to_dir, suffix, stem. rewrite Hn. simpl.
  unfold with_name. rewrite Hn. reflexivity.
Qed.

Lemma ckpt_to_dir_err_cases (path : Path) (e : exc) :
  wf_path path = true -> ckpt_to_dir path = Err e ->
  (parts path = [] /\ e = ValueError_empty_name) \/
  (name path = "..ckpt" /\ e = ValueError_invalid_name).
Proof.
  intros Hwf H. destruct (parts path) as [|x xs] eqn:Ep.
  - left. split; [reflexivity|]. destruct path as [a ps]. simpl in Ep. subst ps.
    rewrite ckpt_to_dir_no_parts in H. congruence.
  - right. rewrite (ckpt_to_dir_cases path Hwf ltac:(congruence)) in H.
    destruct (String.eqb (suffix path) marker) eqn:Es; [|discriminate].
    destruct (String.eqb (stem path) ".") eqn:Ed; [|discriminate].
    injection H as <-. split; [|reflexivity].
    apply String.eqb_eq in Es, Ed.
    rewrite <- (stem_suffix_of (name path)).
    unfold suffix, stem in *. rewrite Es, Ed. reflexivity.
Qed.

(** [C9] (as amended). For every path whose directory [ckpt_to_dir path]
    resolves to [d], [is_distributed_ckpt] returns normally, changes no
    file, and answers true exactly when [d] exists, is a directory and the
    backend probe confirms it; in particular it answers false on an absent
    [d]. A path that [ckpt_to_dir] cannot resolve makes the oracle raise the
    ValueError of pathlib before any filesystem call, whatever the
    filesystem holds: a path with no final name raises the empty-name error,
    the name "..ckpt" the invalid-name error, and for well-formed paths
    these are the only paths on which the oracle raises. *)
Theorem is_distributed_ckpt_spec (path : Path) (w : World) :
  (forall d, ckpt_to_dir path = Ok d ->
   fst (is_distributed_ckpt path w) =
     Ok (existsb_fs (fs w) d && isdirb (fs w) d && check_is_distributed_checkpoint (fs w) d) /\
   fs (snd (is_distributed_ckpt path w)) = fs w /\
   (existsb_fs (fs w) d = false -> fst (is_distributed_ckpt path w) = Ok false)) /\
  (parts path = [] -> is_distributed_ckpt path w = (Err ValueError_empty_name, w)) /\
  (name path = "..ckpt" -> is_distributed_ckpt path w = (Err ValueError_invalid_name, w)) /\
  (wf_path path = true -> forall e, fst (is_distributed_ckpt path w) = Err e ->
   (parts path = [] /\ e = ValueError_empty_name) \/
   (name path = "..ckpt" /\ e = ValueError_invalid_name)).
Proof.
  split; [|split; [|split]].
  - intros d Hd. rewrite (is_distributed_ckpt_eq path d w Hd). simpl.
    destruct (isdirb (fs w) d) eqn:Ei.
    + rewrite (isdirb_existsb _ _ Ei). simpl. split; [reflexivity|]. split; [reflexivity|].
      intros H. discriminate.
    + rewrite andb_false_r. simpl. auto.
  - intros Hp. apply is_distributed_ckpt_err. destruct path as [a ps].
    simpl in Hp. subst ps. apply ckpt_to_dir_no_parts.
  - intros Hn. apply is_distributed_ckpt_err, ckpt_to_dir_dotdot, Hn.
  - intros Hwf e He. apply ckpt_to_dir_err_cases; [exact Hwf|].
    destruct (ckpt_to_dir path) as [d|e'] eqn:Hd.
    + rewrite (is_distributed_ckpt_eq path d w Hd) in He. discriminate.
    + rewrite (is_distributed_ckpt_err path e' w Hd) in He. simpl in He. congruence.
Qed.

Lemma stem_shorter (nm : string) :
  suffix_of nm <> "" -> String.length (stem_of nm) < String.length nm.
Proof.
  intros H. pose proof (stem_suffix_of nm) as E.
  apply (f_equal String.length) in E. rewrite str_length_app in E.
  destruct (suffix_of nm); [congruence|]. simpl in E. lia.
Qed.

Lemma ckpt_to_dir_strips (path d : Path) :
  ckpt_to_dir path = Ok d -> suffix path = marker -> d <> path.
Proof.
  intros Hd Hm ->. unfold ckpt_to_dir in Hd. rewrite Hm in Hd. simpl in Hd.
  rewrite Hm in Hd. simpl in Hd.
  apply with_name_ok in Hd as [Hd _].
  apply (f_equal name) in Hd. rewrite name_replace in Hd.
  pose proof (stem_shorter (name path)) as L. unfold suffix, stem in *.
  rewrite Hm in L. rewrite <- Hd in L. unfold marker in L.
  specialize (L ltac:(discriminate)). lia.
Qed.

(** [C10] (as amended). When the directory [d] that [path] resolves to does
    not itself carry the ".ckpt" suffix, [d] resolves to itself and
    [is_distributed_ckpt path] and [is_distributed_ckpt d] give the same
    answer. A path with the ".ckpt" suffix is never itself the directory
    probed. *)
Theorem is_distributed_ckpt_resolved (path d : Path) (w : World)
    (Hd : ckpt_to_dir path = Ok d) :
  (suffix path = marker -> d <> path) /\
  (suffix d <> marker ->
   ckpt_to_dir d = Ok d /\
   fst (is_distributed_ckpt path w) = fst (is_distributed_ckpt d w)).
Proof.
  split; [apply ckpt_to_dir_strips; exact Hd|]. intros Hs.
  destruct (ckpt_to_dir_ok path d Hd) as [Hv Hne].
  assert (Hdd : ckpt_to_dir d = Ok d).
  { apply ckpt_to_dir_unmarked; auto. apply String.eqb_neq. exact Hs. }
  split; [exact Hdd|].
  rewrite (is_distributed_ckpt_eq path d w Hd), (is_distributed_ckpt_eq d d w Hdd).
  reflexivity.
Qed.

(* ------------------------------------------------------------------ *)
(** ** Further properties of the module *)

Lemma with_suffix_marker_ok (p q : Path) :
  with_suffix p (String.append (suffix p) marker) = Ok q ->
  name p <> "" /\ q = replace_name p (String.append (name p) marker).
Proof.
  intros H. unfold with_suffix, suffix in H.
  destruct (str_contains slash (String.append (suffix_of (name p)) marker)); [discriminate|].
  destruct (suffix_of_shape (name p)) as [E|[rest E]].
  - rewrite E in H. simpl in H.
    destruct (name p =? "")%string eqn:En; [discriminate|].
    apply String.eqb_neq in En. injection H as <-. auto.
  - rewrite E in H. simpl in H.
    replace (String.append rest marker =? "")%string with false in H.
    2:{ symmetry. apply String.eqb_neq. intros H'.
        apply (f_equal String.length) in H'. rewrite str_length_app in H'.
        simpl in H'. lia. }
    simpl in H.
    destruct (name p =? "")%string eqn:En; [discriminate|].
    apply String.eqb_neq in En. injection H as <-. split; [exact En|].
    f_equal.
    change (String dot (String.append rest marker))
      with (String.append (String dot rest) marker).
    replace (S (String.length rest)) with (String.length (String dot rest)) by reflexivity.
    rewrite <- E.
    pose proof (stem_suffix_of (name p)) as ES.
    remember (stem_of (name p)) as st. remember (suffix_of (name p)) as old.
    rewrite <- ES at 1 2 3. rewrite str_length_app.
    replace (String.length st + String.length old - String.length old)
      with (String.length st) by lia.
    rewrite str_take_app, append_assoc_str. reflexivity.
Qed.

(** The first step of [ckpt_to_dir] always yields a path whose suffix is
    the marker, with an unchanged anchor and parent. *)
Lemma ckpt_to_dir_first_step (p q : Path) :
  (if negb (String.eqb (suffix p) marker)
   then with_suffix p (String.append (suffix p) marker) else Ok p) = Ok q ->
  String.eqb (suffix q) marker = true /\ anchor q = anchor p /\
  removelast (parts q) = removelast (parts p).
Proof.
  destruct (String.eqb (suffix p) marker) eqn:Es; simpl.
  - intros H; injection H as <-. auto.
  - intros H. apply with_suffix_marker_ok in H as [Hn ->].
    destruct (suffix_stem_add_marker (name p) Hn) as [S1 _].
    unfold suffix. rewrite name_replace, S1. split; [apply String.eqb_refl|].
    unfold replace_name; simpl. rewrite removelast_last. auto.
Qed.

(** [ckpt_to_dir] fails only with pathlib's ValueErrors (an empty name, or a
    stem refused as a name): its [assert filepath.suffix == ".ckpt"] never
    fires. *)
Theorem ckpt_to_dir_errors (p : Path) (e : exc) (H : ckpt_to_dir p = Err e) :
  e = ValueError_empty_name \/ e = ValueError_invalid_suffix \/ e = ValueError_invalid_name.
Proof.
  unfold ckpt_to_dir in H.
  destruct (if negb (String.eqb (suffix p) marker)
            then with_suffix p (String.append (suffix p) marker) else Ok p) as [q|e0] eqn:E1.
  - simpl in H. destruct (ckpt_to_dir_first_step p q E1) as [Hs _].
    rewrite Hs in H. simpl in H. unfold with_name in H.
    destruct (name q =? "")%string; [injection H as <-; auto|].
    destruct (_ || _); [injection H as <-; auto|discriminate].
  - simpl in H. injection H as <-.
    destruct (negb (String.eqb (suffix p) marker)); [|discriminate].
    unfold with_suffix in E1.
    destruct (str_contains _ _); [injection E1 as <-; auto|].
    destruct (_ || _); [injection E1 as <-; auto|].
    destruct (name p =? "")%string; [injection E1 as <-; auto|discriminate].
Qed.

(** The directory [ckpt_to_dir] returns sits in the parent of its input
    (same anchor, same leading components) and has a proper final name:
    it is never a filesystem root or ".", so removing it cannot remove one. *)
Theorem ckpt_to_dir_sibling (p d : Path) (H : ckpt_to_dir p = Ok d) :
  anchor d = anchor p /\ removelast (parts d) = removelast (parts p) /\
  parts d <> [] /\ valid_part (name d) = true.
Proof.
  unfold ckpt_to_dir in H.
  destruct (if negb (String.eqb (suffix p) marker)
            then with_suffix p (String.append (suffix p) marker) else Ok p) as [q|e0] eqn:E1;
    simpl in H; [|discriminate].
  destruct (ckpt_to_dir_first_step p q E1) as [Hs [Ha Hr]].
  rewrite Hs in H. simpl in H.
  apply with_name_ok in H as [-> Hv].
  unfold replace_name; simpl. rewrite removelast_last.
  split; [exact Ha|]. split; [exact Hr|]. split.
  - intros H'. apply app_eq_nil in H' as [_ H']. discriminate.
  - unfold name, last_part; simpl. rewrite last_last. exact Hv.
Qed.

(** With no [storage_options], a path [ckpt_to_dir] cannot resolve makes
    [save_checkpoint] raise that same error before any filesystem call. *)
Theorem save_resolution_error (io : MegatronCheckpointIO) (checkpoint : Obj)
    (path : Path) (e : exc) (w : World) (H : ckpt_to_dir path = Err e) :
  save_checkpoint io checkpoint path None w = (Err e, w).
Proof. unfold save_checkpoint, bind, lift. rewrite H. reflexivity. Qed.

Lemma key_eqb_refl (k : list string) : key_eqb k k = true.
Proof. unfold key_eqb. destruct (list_eq_dec string_dec k k); congruence. Qed.

Lemma key_eqb_true (a b : list string) : key_eqb a b = true -> a = b.
Proof. unfold key_eqb. destruct (list_eq_dec string_dec a b); congruence. Qed.

Lemma isdirb_mkdir1_self (f : FS) (q : Path) :
  isfileb f q = false -> isdirb (mkdir1 f q) q = true.
Proof.
  unfold isfileb, isdirb, mkdir1. rewrite key_eqb_refl.
  destruct (f (key q)) as [[|]|]; congruence.
Qed.

Lemma isdirb_mkdir1_mono (f : FS) (q q' : Path) :
  isdirb f q = true -> isdirb (mkdir1 f q') q = true.
Proof.
  unfold isdirb, mkdir1. destruct (key_eqb (key q') (key q)); [|auto].
  destruct (f (key q)) as [[|]|]; congruence.
Qed.

Lemma isfileb_mkdir1 (f : FS) (q q' : Path) :
  isfileb f q = false -> isfileb (mkdir1 f q') q = false.
Proof.
  unfold isfileb, mkdir1. destruct (key_eqb (key q') (key q)); [|auto].
  destruct (f (key q)) as [[|]|]; congruence.
Qed.

Lemma fold_mkdir1_mono (qs : list Path) (f : FS) (q : Path) :
  isdirb f q = true -> isdirb (fold_left mkdir1 qs f) q = true.
Proof.
  revert f; induction qs as [|q0 qs IH]; intros f H; simpl; auto.
  apply IH, isdirb_mkdir1_mono, H.
Qed.

Lemma fold_mkdir1_dirs (qs : list Path) (f : FS) :
  (forall q, In q qs -> isfileb f q = false) ->
  forall q, In q qs -> isdirb (fold_left mkdir1 qs f) q = true.
Proof.
  revert f; induction qs as [|q0 qs IH]; intros f Hf q Hq; simpl in *; [contradiction|].
  destruct Hq as [<-|Hq].
  - apply fold_mkdir1_mono, isdirb_mkdir1_self, Hf; auto.
  - apply IH; auto. intros q' Hq'. apply isfileb_mkdir1, Hf; auto.
Qed.

Lemma existsb_false_forall {A} (g : A -> bool) (l : list A) :
  existsb g l = false -> forall x, In x l -> g x = false.
Proof.
  induction l as [|y l IH]; simpl; intros H x Hx; [contradiction|].
  apply orb_false_iff in H as [H1 H2]. destruct Hx as [<-|Hx]; auto.
Qed.

Lemma in_prefixes_self (d : Path) : parts d <> [] -> In d (prefixes d).
Proof.
  intros Hne. unfold prefixes.
  apply in_map_iff. exists (length (parts d)). split.
  - rewrite firstn_all. destruct d; reflexivity.
  - apply in_seq. destruct (parts d); [congruence|]. simpl. lia.
Qed.

Lemma ds_save_one_write (checkpoint : Obj) (d : Path) (s : Strategy) (w : World) :
  dist_saves (trace (snd (ds_save checkpoint d s w))) = S (dist_saves (trace w)).
Proof.
  unfold ds_save, dist_saves.
  destruct (dist_save checkpoint d s (fs w)); simpl;
    rewrite filter_app_length; simpl; lia.
Qed.

(** With no [storage_options], when the resolved directory [d] is not a
    complete checkpoint and no regular file lies on its way, [save_checkpoint]
    first makes [d] and each of its ancestors below the anchor (the first
    [k] components of [d], for every [k]) directories, keeping every existing
    directory, and then calls the sharded write exactly once, on [d] and with
    the instance's [save_sharded_strategy]. *)
Theorem save_writes_after_makedirs (io : MegatronCheckpointIO) (checkpoint : Obj)
    (path d : Path) (w : World)
    (Hd : ckpt_to_dir path = Ok d)
    (Hnot : isdirb (fs w) d && check_is_distributed_checkpoint (fs w) d = false)
    (Hfree : existsb (isfileb (fs w)) (prefixes d) = false) :
  exists w1,
    save_checkpoint io checkpoint path None w = ds_save checkpoint d (save_sharded_strategy io) w1 /\
    isdirb (fs w1) d = true /\
    (forall k, 1 <= k <= length (parts d) ->
     isdirb (fs w1) (mkPath (anchor d) (firstn k (parts d))) = true) /\
    (forall q, isdirb (fs w) q = true -> isdirb (fs w1) q = true) /\
    dist_saves (trace w1) = dist_saves (trace w) /\
    makedirs_calls (trace w1) = S (makedirs_calls (trace w)) /\
    dist_saves (trace (snd (save_checkpoint io checkpoint path None w))) = S (dist_saves (trace w)).
Proof.
  destruct (ckpt_to_dir_sibling path d Hd) as [_ [_ [Hne _]]].
  assert (Hdirs := fold_mkdir1_dirs (prefixes d) (fs w) (existsb_false_forall _ _ Hfree)).
  assert (Hin := in_prefixes_self d Hne).
  pose (w0 := if isdirb (fs w) d then emit (emit w (EvIsdir d)) (EvCheckDist d)
              else emit w (EvIsdir d)).
  pose (w1 := set_fs (emit w0 (EvMakedirs d)) (fold_left mkdir1 (prefixes d) (fs w))).
  assert (Hs : save_checkpoint io checkpoint path None w =
               ds_save checkpoint d (save_sharded_strategy io) w1).
  { unfold w1, w0, save_checkpoint, bind, lift, fs_isdir, ds_check, fs_makedirs, ret.
    rewrite Hd. destruct (isdirb (fs w) d) eqn:Ei; simpl in Hnot; simpl;
      rewrite ?Ei, ?Hnot; simpl; rewrite Hfree; reflexivity. }
  assert (Hw0 : dist_saves (trace w0) = dist_saves (trace w) /\
                makedirs_calls (trace w0) = makedirs_calls (trace w)).
  { unfold w0, dist_saves, makedirs_calls.
    destruct (isdirb (fs w) d); simpl; rewrite <- ?app_assoc, !filter_app_length; simpl; lia. }
  exists w1. split; [exact Hs|].
  split; [apply Hdirs, Hin|].
  split; [intros k Hk; apply Hdirs; unfold prefixes; apply in_map_iff;
          exists k; split; [reflexivity|apply in_seq; lia]|].
  split; [intros q Hq; apply fold_mkdir1_mono, Hq|].
  destruct Hw0 as [Hw0a Hw0b].
  split; [|split].
  - unfold w1, dist_saves in *. simpl. rewrite filter_app_length. simpl. lia.
  - unfold w1, makedirs_calls in *. simpl. rewrite filter_app_length. simpl. lia.
  - rewrite Hs, ds_save_one_write.
    unfold w1, dist_saves in *. simpl. rewrite filter_app_length. simpl. lia.
Qed.

(** With no [storage_options], when a regular file stands at the resolved
    directory [d], [save_checkpoint] fails in [fs.makedirs] and never calls
    the sharded write; no file changes. *)
Theorem save_blocked_by_file (io : MegatronCheckpointIO) (checkpoint : Obj)
    (path d : Path) (w : World)
    (Hd : ckpt_to_dir path = Ok d) (Hf : isfileb (fs w) d = true) :
  exists w', save_checkpoint io checkpoint path None w = (Err (OSError_makedirs d), w') /\
    fs w' = fs w /\ dist_saves (trace w') = dist_saves (trace w).
Proof.
  destruct (ckpt_to_dir_sibling path d Hd) as [_ [_ [Hne _]]].
  assert (Hex : existsb (isfileb (fs w)) (prefixes d) = true).
  { apply existsb_exists. exists d. split; [apply in_prefixes_self, Hne|exact Hf]. }
  assert (Hnd : isdirb (fs w) d = false).
  { unfold isfileb, isdirb in *. destruct (fs w (key d)) as [[|]|]; congruence. }
  unfold save_checkpoint, bind, lift, fs_isdir, fs_makedirs, ret. rewrite Hd. simpl.
  rewrite Hnd. simpl. rewrite Hex.
  eexists. split; [reflexivity|]. split; [reflexivity|].
  unfold dist_saves. simpl. rewrite <- app_assoc, filter_app_length. simpl. lia.
Qed.

(** With no [map_location], on an existing directory, with CUDA initialized
    and a successful sharded read, [load_checkpoint] makes exactly three
    calls (existence check, directory check, sharded read with the caller's
    [sharded_state_dict]), all on the raw path, and returns the read payload
    passed through the device fix for the current device. *)
Theorem load_success (io : MegatronCheckpointIO) (path : Path)
    (sharded_state_dict : option Obj) (ck : Obj) (w : World)
    (Hdir : isdirb (fs w) path = true)
    (Hinit : cuda_initialized w = true)
    (Hread : dist_load sharded_state_dict path (fs w) = Ok ck) :
  load_checkpoint io path sharded_state_dict None w =
  (Ok (dict_list_map_outplace (fix_device (DevCUDA (current_device w))) ck),
   emit (emit (emit w (EvExists path)) (EvIsdir path)) (EvDistLoad path)).
Proof.
  unfold load_checkpoint, bind, fs_exists, fs_isdir, ds_load, raise.
  rewrite (isdirb_existsb _ _ Hdir). simpl. rewrite Hdir. simpl. rewrite Hread.
  unfold fix_tensors_device, bind, cuda_is_initialized, cuda_current_device, ret, raise.
  simpl. rewrite Hinit. reflexivity.
Qed.

(** When CUDA is not initialized, a [load_checkpoint] that gets past its
    checks still performs the sharded read, then fails the assertion of
    [_fix_tensors_device]: it never returns a payload left unrelocated. *)
Theorem load_without_cuda (io : MegatronCheckpointIO) (path : Path)
    (sharded_state_dict : option Obj) (ck : Obj) (w : World)
    (Hdir : isdirb (fs w) path = true)
    (Hinit : cuda_initialized w = false)
    (Hread : dist_load sharded_state_dict path (fs w) = Ok ck) :
  load_checkpoint io path sharded_state_dict None w =
  (Err AssertionError_cuda,
   emit (emit (emit w (EvExists path)) (EvIsdir path)) (EvDistLoad path)).
Proof.
  unfold load_checkpoint, bind, fs_exists, fs_isdir, ds_load, raise.
  rewrite (isdirb_existsb _ _ Hdir). simpl. rewrite Hdir. simpl. rewrite Hread.
  unfold fix_tensors_device, bind, cuda_is_initialized, cuda_current_device, ret, raise.
  simpl. rewrite Hinit. reflexivity.
Qed.

Lemma map_outplace_places (cur : nat) (o : Obj) :
  tensors_placed cur (dict_list_map_outplace (fix_device (DevCUDA cur)) o) = true.
Proof.
  induction o using Obj_rect'; simpl.
  - unfold fix_device.
    destruct (is_cuda t && negb (device_eqb (tdevice t) (DevCUDA cur))) eqn:E; simpl.
    + rewrite ?Nat.eqb_refl, ?orb_true_r. reflexivity.
    + apply andb_false_iff in E as [E|E].
      * rewrite E. reflexivity.
      * apply negb_false_iff in E. rewrite E, orb_true_r. reflexivity.
  - induction H; simpl; auto. rewrite H, IHForall. reflexivity.
  - induction H; simpl; auto. rewrite H, IHForall. reflexivity.
  - reflexivity.
Qed.

(** Every tensor that a payload returned by [load_checkpoint] holds directly
    or through nested dicts and lists, the containers
    [dict_list_map_outplace] descends into, is off CUDA or on the current
    CUDA device. Tensors inside tuples or other containers are leaves the
    code does not visit ([OAtom] here), and this says nothing about them. *)
Theorem load_result_placed (io : MegatronCheckpointIO) (path : Path)
    (sharded_state_dict : option Obj) (map_location : option (Obj -> Obj))
    (w w' : World) (r : Obj)
    (H : load_checkpoint io path sharded_state_dict map_location w = (Ok r, w')) :
  tensors_placed (current_device w) r = true.
Proof.
  destruct map_location; [discriminate|].
  unfold load_checkpoint, bind, fs_exists, fs_isdir, ds_load, raise in H.
  destruct (existsb_fs (fs w) path); simpl in H; [|discriminate].
  destruct (isdirb (fs w) path); simpl in H; [|discriminate].
  destruct (dist_load sharded_state_dict path (fs w)); [|discriminate].
  unfold fix_tensors_device, bind, cuda_is_initialized, cuda_current_device, ret, raise in H.
  simpl in H. destruct (cuda_initialized w); [|discriminate]. simpl in H.
  injection H as <- _. apply map_outplace_places.
Qed.

(** [_fix_tensors_device] is idempotent: applying it to its own result
    gives the same result and the same world. *)
Theorem fix_tensors_device_idempotent (ckpt : Obj) (w : World) :
  bind (fix_tensors_device ckpt) fix_tensors_device w = fix_tensors_device ckpt w.
Proof.
  assert (E : forall c w0, fix_tensors_device c w0 =
    if cuda_initialized w0
    then (Ok (dict_list_map_outplace (fix_device (DevCUDA (current_device w0))) c), w0)
    else (Err AssertionError_cuda, w0)).
  { intros c w0. unfold fix_tensors_device, bind, cuda_is_initialized,
      cuda_current_device, ret, raise.
    destruct (cuda_initialized w0); reflexivity. }
  unfold bind. rewrite !E. destruct (cuda_initialized w) eqn:Ei; [|reflexivity].
  rewrite E, Ei, map_outplace_placed by apply map_outplace_places. reflexivity.
Qed.

Lemma remove_checkpoint_absent (io : MegatronCheckpointIO) (path : Path) (w : World) :
  existsb_fs (fs (snd (remove_checkpoint io path w))) path = false /\
  (forall q, existsb_fs (fs w) q = false ->
             existsb_fs (fs (snd (remove_checkpoint io path w))) q = false).
Proof.
  unfold remove_checkpoint, bind, fs_exists, fs_rm, ret.
  destruct (existsb_fs (fs w) path) eqn:E; cbn [fst snd fs set_fs emit].
  - split.
    + unfold existsb_fs, rm_tree. rewrite is_prefix_of_refl. reflexivity.
    + intros q Hq. unfold existsb_fs, rm_tree in *.
      destruct (is_prefix_of (key path) (key q)); auto.
  - auto.
Qed.

(** A [load_checkpoint] right after [remove_checkpoint] of the same path
    always raises FileNotFoundError, whatever the path held before. *)
Theorem load_after_remove (io io' : MegatronCheckpointIO) (path : Path)
    (sharded_state_dict : option Obj) (w : World) :
  fst (load_checkpoint io path sharded_state_dict None (snd (remove_checkpoint io' path w))) =
  Err (FileNotFoundError_ckpt path).
Proof.
  destruct (remove_checkpoint_absent io' path w) as [H _].
  unfold load_checkpoint, bind, fs_exists, raise. rewrite H. reflexivity.
Qed.

(** After [remove_checkpoint d], every path that resolves to [d] is no
    longer classified as a distributed checkpoint. *)
Theorem oracle_false_after_remove (io : MegatronCheckpointIO) (path d : Path) (w : World)
    (Hd : ckpt_to_dir path = Ok d) :
  fst (is_distributed_ckpt path (snd (remove_checkpoint io d w))) = Ok false.
Proof.
  destruct (remove_checkpoint_absent io d w) as [H _].
  rewrite (is_distributed_ckpt_eq path d _ Hd). simpl.
  replace (isdirb _ d) with false; [reflexivity|].
  symmetry. destruct (isdirb (fs (snd (remove_checkpoint io d w))) d) eqn:E; auto.
  rewrite (isdirb_existsb _ _ E) in H. discriminate.
Qed.

(** Removing twice is removing once: the second [remove_checkpoint] leaves
    the filesystem as the first left it. *)
Theorem remove_checkpoint_twice (io : MegatronCheckpointIO) (path : Path) (w : World) :
  fs (snd (remove_checkpoint io path (snd (remove_checkpoint io path w)))) =
  fs (snd (remove_checkpoint io path w)).
Proof.
  destruct (remove_checkpoint_absent io path w) as [H _].
  remember (snd (remove_checkpoint io path w)) as w1.
  unfold remove_checkpoint at 1, bind, fs_exists, ret. rewrite H. reflexivity.
Qed.

(** [from_trainer] succeeds exactly when both the trainer and its
    LightningModule carry [__io__] (the trainer is checked first); the
    context then holds that module and that trainer, and its [extra] has a
    "datamodule" entry, the datamodule's [__io__], exactly when the trainer
    has a datamodule with [__io__]; a missing datamodule is no error. *)
Theorem from_trainer_spec (t : Trainer) :
  (trainer_io t = None -> from_trainer t = inl ValueError_trainer_not_io) /\
  (trainer_io t <> None -> io_attr (lightning_module t) = None ->
   from_trainer t = inl ValueError_module_not_iomixin) /\
  (trainer_io t <> None -> io_attr (lightning_module t) <> None ->
   exists ctx, from_trainer t = inr ctx) /\
  (forall ctx, from_trainer t = inr ctx ->
   model ctx = lightning_module t /\ trainer ctx = t /\
   (forall io, In ("datamodule", io) (extra ctx) <->
               exists dm, datamodule t = Some dm /\ io_attr dm = Some io) /\
   length (extra ctx) <= 1).
Proof.
  unfold from_trainer. split; [|split; [|split]].
  - intros ->. reflexivity.
  - intros H1 H2. destruct (trainer_io t); [|congruence]. rewrite H2. reflexivity.
  - intros H1 H2. destruct (trainer_io t); [|congruence].
    destruct (io_attr (lightning_module t)); [|congruence]. eexists. reflexivity.
  - intros ctx H. destruct (trainer_io t); [|discriminate].
    destruct (io_attr (lightning_module t)); [|discriminate].
    injection H as <-. simpl. split; [reflexivity|]. split; [reflexivity|].
    unfold construct_extra.
    destruct (datamodule t) as [dm|]; [destruct (io_attr dm) as [o'|] eqn:E|].
    + split; [|simpl; lia]. intros io. simpl. split.
      * intros [H|[]]. injection H as <-. eauto.
      * intros [dm' [H1 H2]]. injection H1 as <-. rewrite E in H2.
        injection H2 as <-. auto.
    + split; [|simpl; lia]. intros io. simpl. split; [intros []|].
      intros [dm' [H1 H2]]. injection H1 as <-. congruence.
    + split; [|simpl; lia]. intros io. simpl. split; [intros []|].
      intros [dm' [H1 _]]. discriminate.
Qed.

End Backend.
Example ckpt_to_dir_ex1 : ckpt_to_dir (mkPath "/" ["ckpts"; "step10.ckpt"]) = Ok (mkPath "/" ["ckpts"; "step10"]).
Proof. reflexivity. Qed.
Example ckpt_to_dir_ex2 : ckpt_to_dir (P "step10.pt") = Ok (P "step10.pt").
Proof. reflexivity. Qed.
Example ckpt_to_dir_ex3 : ckpt_to_dir (P "step10") = Ok (P "step10").
Proof. reflexivity. Qed.
Example ckpt_to_dir_ex4 : ckpt_to_dir (P "..ckpt") = Err ValueError_invalid_name.
Proof. reflexivity. Qed.
Example ckpt_to_dir_ex5 : ckpt_to_dir (P ".bashrc") = Ok (P ".bashrc").
Proof. reflexivity. Qed.
Example ckpt_to_dir_ex6 : ckpt_to_dir (mkPath "" []) = Err ValueError_empty_name.
Proof. reflexivity. Qed.
Example ckpt_to_dir_ex7 : ckpt_to_dir (P "a.") = Ok (P "a.").
Proof. reflexivity. Qed.


(* ------------------------------------------------------------------ *)
(** ** Runs on concrete worlds *)

Definition save0 := save_checkpoint metadata_probe metadata_save init_default.
Definition load0 := load_checkpoint metadata_load init_default.
Definition oracle0 := is_distributed_ckpt metadata_probe.

Definition step10_ckpt : Path := mkPath "/" ["step10.ckpt"].
Definition step10 : Path := mkPath "/" ["step10"].

(** The world after saving [sample_payload] to "/step10.ckpt". *)
Definition world_saved : World := snd (save0 sample_payload step10_ckpt None world0).

Example save_creates_step10 :
  fst (save0 sample_payload step10_ckpt None world0) = Ok tt /\
  isdirb (fs world_saved) step10 = true /\
  fst (oracle0 step10_ckpt world_saved) = Ok true /\
  dist_saves (trace world_saved) = 1.
Proof. vm_compute. auto. Qed.

Example save_again_no_write :
  dist_saves (trace (snd (save0 sample_payload step10_ckpt None world_saved))) = 1.
Proof. vm_compute. reflexivity. Qed.

Example load_step10_relocates :
  fst (load0 step10 None None world_saved) =
  Ok (ODict [("w", OTensor (mkTensor (DevCUDA 0) [1; 2; 3])); ("step", OAtom "10")]).
Proof. vm_compute. reflexivity. Qed.

Definition world_removed : World := snd (remove_checkpoint init_default step10 world_saved).

Example remove_then_load_not_found :
  existsb_fs (fs world_removed) step10 = false /\
  fst (load0 step10 None None world_removed) = Err (FileNotFoundError_ckpt step10).
Proof. vm_compute. auto. Qed.

(* ------------------------------------------------------------------ *)
(** ** Witnesses and counterexamples *)

(** [C1] at "/step10.ckpt" already saved. *)
Lemma save_skips_complete_checkpoint_witness :
  exists w', save0 sample_payload step10_ckpt None world_saved = (Ok tt, w') /\
    fs w' = fs world_saved /\
    dist_saves (trace w') = dist_saves (trace world_saved) /\
    makedirs_calls (trace w') = makedirs_calls (trace world_saved).
Proof.
  apply (save_skips_complete_checkpoint metadata_probe metadata_save init_default
           sample_payload step10_ckpt step10 world_saved);
    vm_compute; reflexivity.
Defined.

(** [C2]: "step10.ckpt" resolves to "step10", not to itself. *)
Lemma ckpt_to_dir_marker_counterexample :
  ckpt_to_dir step10_ckpt <> Ok step10_ckpt.
Proof. vm_compute. discriminate. Qed.

Lemma ckpt_to_dir_spec_witness :
  ckpt_to_dir (mkPath "/" ["ckpts"; "step10.ckpt"]) = Ok (mkPath "/" ["ckpts"; "step10"]) /\
  ckpt_to_dir (mkPath "/" ["ckpts"; "step10.pt"]) = Ok (mkPath "/" ["ckpts"; "step10.pt"]).
Proof.
  split.
  - rewrite (ckpt_to_dir_spec (mkPath "/" ["ckpts"; "step10.ckpt"]) ltac:(vm_compute; reflexivity)
               ltac:(discriminate)). vm_compute. reflexivity.
  - rewrite (ckpt_to_dir_spec (mkPath "/" ["ckpts"; "step10.pt"]) ltac:(vm_compute; reflexivity)
               ltac:(discriminate)). vm_compute. reflexivity.
Defined.

(** [C5]: a missing path, and a regular file. *)
Definition world_file : World :=
  mkWorld (fun k => if key_eqb k ["/"] then Some NDir
                    else if key_eqb k ["/"; "model.pt"] then Some NFile else None) true 0 [].

Lemma load_missing_or_not_dir_witness :
  load0 step10 None None world0 = (Err (FileNotFoundError_ckpt step10), emit world0 (EvExists step10)) /\
  load0 (mkPath "/" ["model.pt"]) None None world_file =
    (Err (ValueError_not_directory (mkPath "/" ["model.pt"])),
     emit (emit world_file (EvExists (mkPath "/" ["model.pt"]))) (EvIsdir (mkPath "/" ["model.pt"]))).
Proof.
  split.
  - apply (proj1 (load_missing_or_not_dir metadata_load init_default step10 None world0)).
    vm_compute. reflexivity.
  - apply (proj2 (load_missing_or_not_dir metadata_load init_default (mkPath "/" ["model.pt"])
                    None world_file)); vm_compute; reflexivity.
Defined.

(** [C8] on the sample payload, tensor on cuda:1, current device 0. *)
Lemma fix_tensors_device_spec_witness :
  exists r, fix_tensors_device sample_payload world0 = (Ok r, world0) /\
    relocated (current_device world0) sample_payload r /\
    (tensors_placed (current_device world0) sample_payload = true -> r = sample_payload).
Proof. apply (fix_tensors_device_spec sample_payload world0). reflexivity. Defined.

(** [C9]: "..ckpt" is absent, yet the oracle raises (its stem "." is not a
    valid name for pathlib's [with_name]). *)
Definition dotdot_ckpt : Path := mkPath "/" ["..ckpt"].

Lemma is_distributed_ckpt_absent_counterexample :
  existsb_fs (fs world0) dotdot_ckpt = false /\
  fst (oracle0 dotdot_ckpt world0) = Err ValueError_invalid_name.
Proof. vm_compute. auto. Qed.

Lemma is_distributed_ckpt_spec_witness :
  fst (oracle0 step10_ckpt world0) = Ok false /\
  fst (oracle0 step10_ckpt world_saved) = Ok true /\
  oracle0 (mkPath "/" []) world_saved = (Err ValueError_empty_name, world_saved) /\
  oracle0 dotdot_ckpt world_saved = (Err ValueError_invalid_name, world_saved).
Proof.
  split; [|split; [|split]].
  - apply (proj2 (proj2 (proj1 (is_distributed_ckpt_spec metadata_probe step10_ckpt world0)
                           step10 ltac:(vm_compute; reflexivity)))).
    vm_compute. reflexivity.
  - unfold oracle0.
    rewrite (proj1 (proj1 (is_distributed_ckpt_spec metadata_probe step10_ckpt world_saved)
                      step10 ltac:(vm_compute; reflexivity))).
    vm_compute. reflexivity.
  - apply (proj1 (proj2 (is_distributed_ckpt_spec metadata_probe (mkPath "/" []) world_saved))).
    reflexivity.
  - apply (proj1 (proj2 (proj2 (is_distributed_ckpt_spec metadata_probe dotdot_ckpt world_saved)))).
    reflexivity.
Defined.

(** [C10]: "x.ckpt.ckpt" resolves to "x.ckpt", which resolves to "x"; with a
    checkpoint saved at "x.ckpt" the two are classified differently. *)
Definition x_ckpt_ckpt : Path := mkPath "/" ["x.ckpt.ckpt"].
Definition x_ckpt : Path := mkPath "/" ["x.ckpt"].
Definition world_x : World := snd (save0 sample_payload x_ckpt_ckpt None world0).

Lemma is_distributed_ckpt_resolve_counterexample :
  ckpt_to_dir x_ckpt_ckpt = Ok x_ckpt /\
  fst (oracle0 x_ckpt_ckpt world_x) = Ok true /\
  fst (oracle0 x_ckpt world_x) = Ok false.
Proof. vm_compute. auto. Qed.

Lemma is_distributed_ckpt_resolved_witness :
  fst (oracle0 step10_ckpt world_saved) = fst (oracle0 step10 world_saved).
Proof.
  apply (proj2 (proj2 (is_distributed_ckpt_resolved metadata_probe step10_ckpt step10 world_saved
                         ltac:(vm_compute; reflexivity)) ltac:(vm_compute; discriminate))).
Defined.

(* ------------------------------------------------------------------ *)
(** ** Witnesses of the further properties *)

Lemma ckpt_to_dir_errors_witness :
  ValueError_invalid_name = ValueError_empty_name \/
  ValueError_invalid_name = ValueError_invalid_suffix \/
  ValueError_invalid_name = ValueError_invalid_name.
Proof. apply (ckpt_to_dir_errors dotdot_ckpt). vm_compute. reflexivity. Defined.

Lemma ckpt_to_dir_sibling_witness :
  anchor (mkPath "/" ["ckpts"; "step10"]) = anchor (mkPath "/" ["ckpts"; "step10.ckpt"]) /\
  removelast (parts (mkPath "/" ["ckpts"; "step10"])) =
    removelast (parts (mkPath "/" ["ckpts"; "step10.ckpt"])) /\
  parts (mkPath "/" ["ckpts"; "step10"]) <> [] /\
  valid_part (name (mkPath "/" ["ckpts"; "step10"])) = true.
Proof. apply ckpt_to_dir_sibling. vm_compute. reflexivity. Defined.

Lemma save_resolution_error_witness :
  save0 sample_payload dotdot_ckpt None world0 = (Err ValueError_invalid_name, world0).
Proof.
  apply (save_resolution_error metadata_probe metadata_save init_default sample_payload
           dotdot_ckpt ValueError_invalid_name world0).
  vm_compute. reflexivity.
Defined.

Lemma save_writes_after_makedirs_witness :
  exists w1,
    save0 sample_payload step10_ckpt None world0 =
      ds_save metadata_save sample_payload step10 (save_sharded_strategy init_default) w1 /\
    isdirb (fs w1) step10 = true /\
    (forall k, 1 <= k <= length (parts step10) ->
     isdirb (fs w1) (mkPath (anchor step10) (firstn k (parts step10))) = true) /\
    (forall q, isdirb (fs world0) q = true -> isdirb (fs w1) q = true) /\
    dist_saves (trace w1) = dist_saves (trace world0) /\
    makedirs_calls (trace w1) = S (makedirs_calls (trace world0)) /\
    dist_saves (trace (snd (save0 sample_payload step10_ckpt None world0))) =
      S (dist_saves (trace world0)).
Proof.
  apply (save_writes_after_makedirs metadata_probe metadata_save init_default sample_payload
           step10_ckpt step10 world0); vm_compute; reflexivity.
Defined.

Definition world_step10_file : World :=
  mkWorld (fun k => if key_eqb k ["/"] then Some NDir
                    else if key_eqb k ["/"; "step10"] then Some NFile else None) true 0 [].

Lemma save_blocked_by_file_witness :
  exists w', save0 sample_payload step10_ckpt None world_step10_file =
               (Err (OSError_makedirs step10), w') /\
    fs w' = fs world_step10_file /\
    dist_saves (trace w') = dist_saves (trace world_step10_file).
Proof.
  apply (save_blocked_by_file metadata_probe metadata_save init_default sample_payload
           step10_ckpt step10 world_step10_file); vm_compute; reflexivity.
Defined.

Lemma load_success_witness :
  load0 step10 None None world_saved =
  (Ok (dict_list_map_outplace (fix_device (DevCUDA (current_device world_saved))) sample_payload),
   emit (emit (emit world_saved (EvExists step10)) (EvIsdir step10)) (EvDistLoad step10)).
Proof.
  apply (load_success metadata_load init_default step10 None sample_payload world_saved);
    vm_compute; reflexivity.
Defined.

Definition world_saved_nocuda : World :=
  mkWorld (fs world_saved) false 0 (trace world_saved).

Lemma load_without_cuda_witness :
  load0 step10 None None world_saved_nocuda =
  (Err AssertionError_cuda,
   emit (emit (emit world_saved_nocuda (EvExists step10)) (EvIsdir step10)) (EvDistLoad step10)).
Proof.
  apply (load_without_cuda metadata_load init_default step10 None sample_payload
           world_saved_nocuda); vm_compute; reflexivity.
Defined.

Lemma load_result_placed_witness :
  tensors_placed (current_device world_saved)
    (ODict [("w", OTensor (mkTensor (DevCUDA 0) [1; 2; 3])); ("step", OAtom "10")]) = true.
Proof.
  apply (load_result_placed metadata_load init_default step10 None None world_saved
           (snd (load0 step10 None None world_saved))).
  vm_compute. reflexivity.
Defined.

Lemma oracle_false_after_remove_witness :
  fst (oracle0 step10_ckpt (snd (remove_checkpoint init_default step10 world_saved))) = Ok false.
Proof.
  apply (oracle_false_after_remove metadata_probe init_default step10_ckpt step10 world_saved).
  vm_compute. reflexivity.
Defined.

Definition trainer_with_dm : Trainer :=
  mkTrainer (Some (OAtom "trainer")) (mkPyObj (Some (OAtom "model")))
            (Some (mkPyObj (Some (OAtom "dm")))).

Definition trainer_no_dm : Trainer :=
  mkTrainer (Some (OAtom "trainer")) (mkPyObj (Some (OAtom "model"))) None.

Lemma from_trainer_spec_witness :
  (exists ctx, from_trainer trainer_no_dm = inr ctx) /\
  model (mkTrainerContext (lightning_module trainer_with_dm) trainer_with_dm
           [("datamodule", OAtom "dm")]) = lightning_module trainer_with_dm.
Proof.
  split.
  - apply (proj1 (proj2 (proj2 (from_trainer_spec trainer_no_dm)))); discriminate.
  - apply (proj1 (proj2 (proj2 (proj2 (from_trainer_spec trainer_with_dm))) _ eq_refl)).
Defined.
